(** * The mock debug runtime: stepping engine of [mock-go/internal/engine/engine.go]

    A shallow embedding of the Go engine ([Engine] and its methods), and the
    properties of its stepping and breakpoint state machine.  The methods
    of the C# and TypeScript engines that behave differently are embedded
    next to it, in [CSharp] and [TS].

    Conventions of the embedding.
    - Go [int] is [Z].  Counters ([nextBpID], [instruction]) stay far below
      2^63 on any run a machine can perform, so the 64-bit wrap-around of
      [++] is not written out.
    - Go [string] is a byte string ([string] of [ascii]); the regular
      expressions of the engine are matched on bytes.  [strings.TrimSpace]
      is modelled on the ASCII white space it removes (text is assumed to
      contain no non-ASCII Unicode space).
    - Maps are [gmap], the two Go sets ([map[K]struct{}]) are [gset].
    - A run-time panic (slice index out of range) is the result [Panic];
      events sent to the [Debugger] are collected, in order, in a list.
    - The two unbounded [for] loops ([Continue], [findNextStatement]) run
      on fuel; [Continue_returns] and [Next_returns] show that the fuel
      they are given is never used up. *)

From Stdlib Require Import ZArith Ascii String List Bool Lia.
From stdpp Require Import base option list gmap strings.

Open Scope string_scope.
Open Scope list_scope.
Open Scope Z_scope.

(** ** Bytes and strings *)

Module Str.

Definition code (c : ascii) : nat := nat_of_ascii c.

Definition between (lo hi : nat) (c : ascii) : bool :=
  (Nat.leb lo (code c)) && (Nat.leb (code c) hi).

Definition isUpper (c : ascii) : bool := between 65 90 c.
Definition isLower (c : ascii) : bool := between 97 122 c.
Definition isLetter (c : ascii) : bool := isUpper c || isLower c.
Definition isDigit (c : ascii) : bool := between 48 57 c.
Definition isAlnum (c : ascii) : bool := isLetter c || isDigit c.
(** [\w] of Go's regexp: [0-9A-Za-z_]. *)
Definition isWordChar (c : ascii) : bool := isAlnum c || Nat.eqb (code c) 95.
(** ASCII white space removed by [strings.TrimSpace]: \t \n \v \f \r and space. *)
Definition isSpace (c : ascii) : bool := between 9 13 c || Nat.eqb (code c) 32.
Definition isNewline (c : ascii) : bool := Nat.eqb (code c) 10.
(** [.] of the regexps: any byte but the line feed. *)
Definition isDot (c : ascii) : bool := negb (isNewline c).
Definition isChar (d : ascii) (c : ascii) : bool := Ascii.eqb d c.

Definition dquote : ascii := "034"%char.
Definition linefeed : ascii := "010"%char.
Definition creturn : ascii := "013"%char.

Fixpoint len (s : string) : Z :=
  match s with
  | EmptyString => 0
  | String _ s' => 1 + len s'
  end.

Fixpoint hasPrefix (p s : string) : bool :=
  match p, s with
  | EmptyString, _ => true
  | String a p', String b s' => Ascii.eqb a b && hasPrefix p' s'
  | String _ _, EmptyString => false
  end.

Fixpoint dropN (n : nat) (s : string) : string :=
  match n, s with
  | O, _ => s
  | S n', String _ s' => dropN n' s'
  | S _, EmptyString => EmptyString
  end.

Fixpoint takeWhile (f : ascii -> bool) (s : string) : string :=
  match s with
  | EmptyString => EmptyString
  | String c s' => if f c then String c (takeWhile f s') else EmptyString
  end.

Fixpoint dropWhile (f : ascii -> bool) (s : string) : string :=
  match s with
  | EmptyString => EmptyString
  | String c s' => if f c then dropWhile f s' else s
  end.

(** The part of [s] before the last occurrence of [d], if [d] occurs. *)
Fixpoint uptoLast (d : ascii) (s : string) : option string :=
  match s with
  | EmptyString => None
  | String c s' =>
      match uptoLast d s' with
      | Some t => Some (String c t)
      | None => if Ascii.eqb c d then Some EmptyString else None
      end
  end.

(** [strings.Contains]. *)
Fixpoint contains (s sub : string) : bool :=
  hasPrefix sub s ||
  match s with
  | EmptyString => false
  | String _ s' => contains s' sub
  end.

Fixpoint trimLeft (s : string) : string :=
  match s with
  | EmptyString => EmptyString
  | String c s' => if isSpace c then trimLeft s' else s
  end.

Fixpoint trimRight (s : string) : string :=
  match s with
  | EmptyString => EmptyString
  | String c s' =>
      match trimRight s' with
      | EmptyString => if isSpace c then EmptyString else String c EmptyString
      | t => String c t
      end
  end.

(** [strings.TrimSpace]. *)
Definition TrimSpace (s : string) : string := trimRight (trimLeft s).

(** [strings.Trim] with the one-byte cutset of the double quote: every
    leading and trailing double quote is removed. *)
Fixpoint trimRightQuotes (s : string) : string :=
  match s with
  | EmptyString => EmptyString
  | String c s' =>
      match trimRightQuotes s' with
      | EmptyString => if isChar dquote c then EmptyString else String c EmptyString
      | t => String c t
      end
  end.

Definition trimQuotes (s : string) : string :=
  trimRightQuotes (dropWhile (isChar dquote) s).

Fixpoint hasSuffixChar (d : ascii) (s : string) : bool :=
  match s with
  | EmptyString => false
  | String c EmptyString => Ascii.eqb c d
  | String _ s' => hasSuffixChar d s'
  end.

End Str.

(** ** The five regular expressions of the engine

    Each matcher follows Go's leftmost-first semantics for the one pattern
    it implements; [FindAll] resumes after the end of the previous match
    (no pattern here matches the empty string). *)

Module Re.
Import Str.

(** The region a greedy [.*] can cross: up to the first line feed. *)
Definition dotRegion (s : string) : string := takeWhile isDot s.

(** *** [wordRe = [a-zA-Z]+] *)

(** One match of [FindAllStringSubmatchIndex]: the text of the run and the
    byte offset [m[0]] where it starts. *)
Fixpoint scanWords (s : string) (pos : Z) (cur : option (Z * string))
  : list (Z * string) :=
  match s with
  | EmptyString =>
      match cur with
      | Some (i, w) => [(i, w)]
      | None => []
      end
  | String c s' =>
      if isLetter c then
        match cur with
        | Some (i, w) => scanWords s' (pos + 1) (Some (i, w +:+ String c EmptyString))
        | None => scanWords s' (pos + 1) (Some (pos, String c EmptyString))
        end
      else
        match cur with
        | Some (i, w) => (i, w) :: scanWords s' (pos + 1) None
        | None => scanWords s' (pos + 1) None
        end
  end.

Definition findWords (s : string) : list (Z * string) := scanWords s 0 None.

(** *** [rwVarRe]

    A dollar sign, group 1 = a letter followed by a greedy run of letters
    and digits, then optionally group 2 = the equals sign and group 3 =
    one of, in this order: [false], [true], a number [[0-9]+(\.[0-9]+)?],
    a double quote, a greedy run of any bytes and a double quote, or an
    opening brace, a greedy run of any bytes and a closing brace. *)

(** A match: group 1 (the name) and, when group 2 took part, group 3 (the
    value token after [=]). *)
Record VarMatch := { vname : string; vvalue : option string }.

(** [[0-9]+(\.[0-9]+)?] at the head of [s]. *)
Definition matchNumber (s : string) : option string :=
  match takeWhile isDigit s with
  | EmptyString => None
  | ds =>
      match dropWhile isDigit s with
      | String "." r =>
          match takeWhile isDigit r with
          | EmptyString => Some ds
          | fs => Some (ds +:+ String "." fs)
          end
      | _ => Some ds
      end
  end.

(** An opening byte, a greedy [.*] and the closing byte [close], at the
    head of [s]: the token runs to the last [close] before the line ends. *)
Definition matchDelimited (open close : ascii) (s : string) : option string :=
  match s with
  | String c r =>
      if Ascii.eqb c open then
        match uptoLast close (dotRegion r) with
        | Some body => Some (String open (body +:+ String close EmptyString))
        | None => None
        end
      else None
  | EmptyString => None
  end.

(** Group 3: the alternatives are tried in the order they are written. *)
Definition matchValue (s : string) : option string :=
  if hasPrefix "false" s then Some "false"
  else if hasPrefix "true" s then Some "true"
  else match matchNumber s with
       | Some t => Some t
       | None =>
           match matchDelimited dquote dquote s with
           | Some t => Some t
           | None => matchDelimited "{" "}" s
           end
       end.

(** The pattern anchored at the head of [s]; also gives the length of the
    whole match. *)
Definition matchVarAt (s : string) : option (VarMatch * nat) :=
  match s with
  | String "$" (String c r) =>
      if isLetter c then
        let name := String c (takeWhile isAlnum r) in
        let after := dropWhile isAlnum r in
        let bare := ({| vname := name; vvalue := None |}, S (String.length name)) in
        match after with
        | String "=" v =>
            match matchValue v with
            | Some tok =>
                Some ({| vname := name; vvalue := Some tok |},
                      S (String.length name) + 1 + String.length tok)%nat
            | None => Some bare
            end
        | _ => Some bare
        end
      else None
  | _ => None
  end.

(** [FindAll]: [skip] bytes of the previous match are still to be passed. *)
Fixpoint scanVars (s : string) (skip : nat) : list VarMatch :=
  match s with
  | EmptyString => []
  | String _ s' =>
      match skip with
      | S k => scanVars s' k
      | O =>
          match matchVarAt s with
          | Some (m, n) => m :: scanVars s' (Nat.pred n)
          | None => scanVars s' O
          end
      end
  end.

Definition findVars (s : string) : list VarMatch := scanVars s O.

(** *** [logRe]

    Group 1 = [log|prio|out|err], an opening parenthesis, group 2 = a
    greedy run of bytes other than the closing parenthesis, and a closing
    parenthesis. *)

Record LogMatch := { lcat : string; lpayload : string; lstart : Z }.

(** One alternative [cat] of group 1 at the head of [s]: the payload runs
    to the first closing parenthesis, which has to exist. *)
Definition matchLogCat (cat : string) (s : string) : option (string * nat) :=
  if hasPrefix (cat +:+ "(") s then
    let r := dropN (S (String.length cat)) s in
    match dropWhile (fun c => negb (isChar ")" c)) r with
    | String _ _ =>
        let payload := takeWhile (fun c => negb (isChar ")" c)) r in
        Some (payload, (String.length cat + 1 + String.length payload + 1)%nat)
    | EmptyString => None
    end
  else None.

Fixpoint matchLogAlts (cats : list string) (s : string) : option (string * string * nat) :=
  match cats with
  | [] => None
  | cat :: cats' =>
      match matchLogCat cat s with
      | Some (payload, n) => Some (cat, payload, n)
      | None => matchLogAlts cats' s
      end
  end.

Definition matchLogAt (s : string) : option (string * string * nat) :=
  matchLogAlts ["log"; "prio"; "out"; "err"] s.

Fixpoint scanLogs (s : string) (pos : Z) (skip : nat) : list LogMatch :=
  match s with
  | EmptyString => []
  | String _ s' =>
      match skip with
      | S k => scanLogs s' (pos + 1) k
      | O =>
          match matchLogAt s with
          | Some (cat, payload, n) =>
              {| lcat := cat; lpayload := payload; lstart := pos |}
                :: scanLogs s' (pos + 1) (Nat.pred n)
          | None => scanLogs s' (pos + 1) O
          end
      end
  end.

Definition findLogs (s : string) : list LogMatch := scanLogs s 0 O.

(** *** [excName]

    The word [exception], an opening parenthesis, group 1 = a greedy run
    of any bytes, and a closing parenthesis.

    [FindStringSubmatch]: group 1 of the leftmost match, or [None] when the
    pattern matches nowhere (the returned slice then has length 0, not 2). *)
Fixpoint findExcName (s : string) : option string :=
  match s with
  | EmptyString => None
  | String _ s' =>
      if hasPrefix "exception(" s then
        match uptoLast ")" (dotRegion (dropN 10 s)) with
        | Some g => Some g
        | None => findExcName s'
        end
      else findExcName s'
  end.

(** *** [excToken = \bexception\b]

    [prevWord] tells whether the byte before the head of [s] is a word
    byte (false at the start of the text). *)
Definition wordEndsAt (s : string) : bool :=
  match s with
  | EmptyString => true
  | String c _ => negb (isWordChar c)
  end.

Fixpoint scanExcToken (s : string) (prevWord : bool) : bool :=
  match s with
  | EmptyString => false
  | String c s' =>
      (negb prevWord && hasPrefix "exception" s && wordEndsAt (dropN 9 s))
      || scanExcToken s' (isWordChar c)
  end.

Definition matchExcToken (s : string) : bool := scanExcToken s false.

End Re.

(** ** Data model of [engine.go] *)

(** [type Breakpoint struct]. *)
Record Breakpoint := { ID : Z; BpLine : Z; Verified : bool }.

(** [type Word struct]. *)
Record Word := { Name : string; Line : Z; Index : Z }.

(** The values kept in [locals] ([any] in Go): what [parseToken] builds and
    what a client can send through [SetVariable]. *)
#[warnings="-register-all"] Inductive Value :=
| VNull
| VBool (b : bool)
| VInt (n : Z)
| VStr (s : string)
| VFields (fs : list (string * Value)).

(** The [Debugger] interface: one constructor per callback, with the
    arguments of the Go signature. *)
Inductive Event :=
| OnStopOnEntry (line : Z) (column : option Z)
| OnStopOnStep (line : Z) (column : option Z)
| OnStopOnBreakpoint (line : Z) (column : option Z)
| OnStopOnException (line : Z) (exception : option string) (column : option Z)
| OnStopOnDataBreakpoint (line : Z) (column : option Z)
| OnStopOnInstructionBreakpoint (line : Z) (column : option Z)
| OnStopOnPause (line : Z) (column : option Z)
| OnBreakpointValidated (id : Z) (verified : bool)
| OnOutput (category text file : string) (line column : Z)
| OnEnd.

(** The events a client sees as [stopped]. *)
Definition isStop (ev : Event) : bool :=
  match ev with
  | OnStopOnEntry _ _ | OnStopOnStep _ _ | OnStopOnBreakpoint _ _
  | OnStopOnException _ _ _ | OnStopOnDataBreakpoint _ _
  | OnStopOnInstructionBreakpoint _ _ | OnStopOnPause _ _ => true
  | OnBreakpointValidated _ _ | OnOutput _ _ _ _ _ | OnEnd => false
  end.

Definition stops (evs : list Event) : list Event := List.filter isStop evs.

(** [type Engine struct] without the [dbg] field, whose calls are the
    emitted events. *)
Record Engine := {
  sourceFile : string;
  sourceLines : list string;
  currentLine : Z;
  currentCol : option Z;
  instruction : Z;
  instructions : list Word;
  starts : list Z;
  ends : list Z;
  nextBpID : Z;
  bps : gmap string (list Breakpoint);
  namedException : option string;
  otherExceptions : bool;
  dataBps : gmap string string;
  instrBps : gset Z;
  variables : gset string;
  locals : gmap string Value;
  paused : bool
}.

(** [func New]. *)
Definition New : Engine := {|
  sourceFile := ""; sourceLines := [];
  currentLine := 0; currentCol := None; instruction := 0;
  instructions := []; starts := []; ends := [];
  nextBpID := 1; bps := ∅;
  namedException := None; otherExceptions := false;
  dataBps := ∅; instrBps := ∅; variables := ∅; locals := ∅;
  paused := false |}.

(** Field updates. *)
Definition set_currentLine (v : Z) (e : Engine) : Engine :=
  {| sourceFile := sourceFile e; sourceLines := sourceLines e;
     currentLine := v; currentCol := currentCol e; instruction := instruction e;
     instructions := instructions e; starts := starts e; ends := ends e;
     nextBpID := nextBpID e; bps := bps e;
     namedException := namedException e; otherExceptions := otherExceptions e;
     dataBps := dataBps e; instrBps := instrBps e; variables := variables e;
     locals := locals e; paused := paused e |}.

Definition set_currentCol (v : option Z) (e : Engine) : Engine :=
  {| sourceFile := sourceFile e; sourceLines := sourceLines e;
     currentLine := currentLine e; currentCol := v; instruction := instruction e;
     instructions := instructions e; starts := starts e; ends := ends e;
     nextBpID := nextBpID e; bps := bps e;
     namedException := namedException e; otherExceptions := otherExceptions e;
     dataBps := dataBps e; instrBps := instrBps e; variables := variables e;
     locals := locals e; paused := paused e |}.

Definition set_instruction (v : Z) (e : Engine) : Engine :=
  {| sourceFile := sourceFile e; sourceLines := sourceLines e;
     currentLine := currentLine e; currentCol := currentCol e; instruction := v;
     instructions := instructions e; starts := starts e; ends := ends e;
     nextBpID := nextBpID e; bps := bps e;
     namedException := namedException e; otherExceptions := otherExceptions e;
     dataBps := dataBps e; instrBps := instrBps e; variables := variables e;
     locals := locals e; paused := paused e |}.

Definition set_nextBpID (v : Z) (e : Engine) : Engine :=
  {| sourceFile := sourceFile e; sourceLines := sourceLines e;
     currentLine := currentLine e; currentCol := currentCol e; instruction := instruction e;
     instructions := instructions e; starts := starts e; ends := ends e;
     nextBpID := v; bps := bps e;
     namedException := namedException e; otherExceptions := otherExceptions e;
     dataBps := dataBps e; instrBps := instrBps e; variables := variables e;
     locals := locals e; paused := paused e |}.

Definition set_bps (v : gmap string (list Breakpoint)) (e : Engine) : Engine :=
  {| sourceFile := sourceFile e; sourceLines := sourceLines e;
     currentLine := currentLine e; currentCol := currentCol e; instruction := instruction e;
     instructions := instructions e; starts := starts e; ends := ends e;
     nextBpID := nextBpID e; bps := v;
     namedException := namedException e; otherExceptions := otherExceptions e;
     dataBps := dataBps e; instrBps := instrBps e; variables := variables e;
     locals := locals e; paused := paused e |}.


Definition set_dataBps (v : gmap string string) (e : Engine) : Engine :=
  {| sourceFile := sourceFile e; sourceLines := sourceLines e;
     currentLine := currentLine e; currentCol := currentCol e; instruction := instruction e;
     instructions := instructions e; starts := starts e; ends := ends e;
     nextBpID := nextBpID e; bps := bps e;
     namedException := namedException e; otherExceptions := otherExceptions e;
     dataBps := v; instrBps := instrBps e; variables := variables e;
     locals := locals e; paused := paused e |}.

Definition set_instrBps (v : gset Z) (e : Engine) : Engine :=
  {| sourceFile := sourceFile e; sourceLines := sourceLines e;
     currentLine := currentLine e; currentCol := currentCol e; instruction := instruction e;
     instructions := instructions e; starts := starts e; ends := ends e;
     nextBpID := nextBpID e; bps := bps e;
     namedException := namedException e; otherExceptions := otherExceptions e;
     dataBps := dataBps e; instrBps := v; variables := variables e;
     locals := locals e; paused := paused e |}.

Definition set_variables (v : gset string) (e : Engine) : Engine :=
  {| sourceFile := sourceFile e; sourceLines := sourceLines e;
     currentLine := currentLine e; currentCol := currentCol e; instruction := instruction e;
     instructions := instructions e; starts := starts e; ends := ends e;
     nextBpID := nextBpID e; bps := bps e;
     namedException := namedException e; otherExceptions := otherExceptions e;
     dataBps := dataBps e; instrBps := instrBps e; variables := v;
     locals := locals e; paused := paused e |}.

Definition set_locals (v : gmap string Value) (e : Engine) : Engine :=
  {| sourceFile := sourceFile e; sourceLines := sourceLines e;
     currentLine := currentLine e; currentCol := currentCol e; instruction := instruction e;
     instructions := instructions e; starts := starts e; ends := ends e;
     nextBpID := nextBpID e; bps := bps e;
     namedException := namedException e; otherExceptions := otherExceptions e;
     dataBps := dataBps e; instrBps := instrBps e; variables := variables e;
     locals := v; paused := paused e |}.

Definition set_paused (v : bool) (e : Engine) : Engine :=
  {| sourceFile := sourceFile e; sourceLines := sourceLines e;
     currentLine := currentLine e; currentCol := currentCol e; instruction := instruction e;
     instructions := instructions e; starts := starts e; ends := ends e;
     nextBpID := nextBpID e; bps := bps e;
     namedException := namedException e; otherExceptions := otherExceptions e;
     dataBps := dataBps e; instrBps := instrBps e; variables := variables e;
     locals := locals e; paused := v |}.

(** ** Effects: state, emitted events, panics *)

Inductive Result (A : Type) : Type :=
| Ok (a : A)
| Panic
| OutOfFuel.
Arguments Ok {A} a.
Arguments Panic {A}.
Arguments OutOfFuel {A}.

(** A method of [*Engine]: from the state before the call to the returned
    value, the state after it and the events sent during it. *)
Definition M (A : Type) : Type := Engine -> Result (A * Engine * list Event).

Definition ret {A} (a : A) : M A := fun e => Ok (a, e, []).

Definition bind {A B} (m : M A) (k : A -> M B) : M B := fun e =>
  match m e with
  | Ok (a, e1, evs1) =>
      match k a e1 with
      | Ok (b, e2, evs2) => Ok (b, e2, evs1 ++ evs2)
      | Panic => Panic
      | OutOfFuel => OutOfFuel
      end
  | Panic => Panic
  | OutOfFuel => OutOfFuel
  end.

Declare Scope engine_scope.
Delimit Scope engine_scope with engine.
Notation "x ← y ; z" := (bind y (fun x => z))
  (at level 20, y at level 100, z at level 200, only parsing) : engine_scope.
Notation "x ;; z" := (bind x (fun _ => z))
  (at level 100, z at level 200, only parsing, right associativity) : engine_scope.
Open Scope engine_scope.

Definition get : M Engine := fun e => Ok (e, e, []).
Definition modify (f : Engine -> Engine) : M unit := fun e => Ok (tt, f e, []).
Definition emit (ev : Event) : M unit := fun e => Ok (tt, e, [ev]).
Definition panic {A} : M A := fun _ => Panic.
Definition outOfFuel {A} : M A := fun _ => OutOfFuel.

(** [l[i]] on a slice: panics outside [0 <= i < len(l)]. *)
Definition at_ {A} (l : list A) (i : Z) : option A :=
  if i <? 0 then None else l !! Z.to_nat i.

Definition index {A} (l : list A) (i : Z) : M A :=
  match at_ l i with
  | Some x => ret x
  | None => panic
  end.

(** What a call sent to the debugger, and the state it left. *)
Definition events {A} (r : Result (A * Engine * list Event)) : list Event :=
  match r with
  | Ok (_, _, evs) => evs
  | _ => []
  end.

(** ** Helpers of the engine *)

(** [splitLines]: a [bufio.Scanner] with the default [ScanLines].  A line
    ends at a line feed; text after the last line feed is a line only when
    it is not empty; one trailing carriage return is dropped from each
    line.  (Lines are shorter than the scanner's 64 KiB token limit.) *)
Fixpoint scanLines (s cur : string) (pending : bool) : list string :=
  match s with
  | EmptyString => if pending then [cur] else []
  | String c s' =>
      if Str.isNewline c then cur :: scanLines s' EmptyString false
      else scanLines s' (cur +:+ String c EmptyString) true
  end.

Fixpoint dropCR (s : string) : string :=
  match s with
  | EmptyString => EmptyString
  | String c EmptyString => if Str.isChar Str.creturn c then EmptyString else s
  | String c s' => String c (dropCR s')
  end.

Definition splitLines (s : string) : list string :=
  List.map dropCR (scanLines s EmptyString false).

(** [getWords]. *)
Definition getWords (l : Z) (line : string) : list Word :=
  List.map (fun m => {| Name := snd m; Line := l; Index := fst m |}) (Re.findWords line).

(** [parseToken]. *)
Definition parseToken (t : string) : Value :=
  if String.eqb t "true" then VBool true
  else if String.eqb t "false" then VBool false
  else if Str.hasPrefix (String Str.dquote EmptyString) t && Str.hasSuffixChar Str.dquote t
       then VStr (Str.trimQuotes t)
  else if Str.hasPrefix "{" t
       then VFields [("fBool", VBool true); ("fInteger", VInt 123);
                     ("fString", VStr "hello"); ("flazyInteger", VInt 321)]
  else VStr t.

(** [getLine]: the empty string outside the document. *)
Definition getLine (e : Engine) (line : Z) : string :=
  default EmptyString (at_ (sourceLines e) line).

Definition isBlank (s : string) : bool :=
  match Str.TrimSpace s with
  | EmptyString => true
  | String _ _ => false
  end.

(** [verifyLine]. *)
Definition verifyLine (e : Engine) (line : Z) : bool :=
  if (line <? 0) || (Z.of_nat (length (sourceLines e)) <=? line) then false
  else negb (isBlank (getLine e line)).

(** ** Loading a source *)

(** The body of the [range e.sourceLines] loop of [LoadSource], on the
    three slices it appends to. *)
Fixpoint indexLines (i : Z) (lines : list string)
    (ins : list Word) (ss es : list Z) : list Word * list Z * list Z :=
  match lines with
  | [] => (ins, ss, es)
  | line :: rest =>
      let ss' := ss ++ [Z.of_nat (length ins)] in
      let ins' := ins ++ getWords i line in
      let es' := es ++ [Z.of_nat (length ins')] in
      indexLines (i + 1) rest ins' ss' es'
  end.

Section WithAbs.

(** [filepath.Abs], which depends on the working directory of the process. *)
Variable abs : string -> string.

(** [LoadSource]: breakpoints, filters, the seen names, the locals and the
    paused flag are left as they are. *)
Definition LoadSource (path contents : string) (e : Engine) : Engine :=
  let lines := splitLines contents in
  let '(ins, ss, es) := indexLines 0 lines [] [] [] in
  {| sourceFile := abs path; sourceLines := lines;
     currentLine := 0; currentCol := None;
     instruction := match ss with s0 :: _ => s0 | [] => 0 end;
     instructions := ins; starts := ss; ends := es;
     nextBpID := nextBpID e; bps := bps e;
     namedException := namedException e; otherExceptions := otherExceptions e;
     dataBps := dataBps e; instrBps := instrBps e; variables := variables e;
     locals := locals e; paused := paused e |}.

(** [SetBreakpoints]: the loop over the requested lines, then the method.
    The result lists, per line, the [id], [line] and [verified] of the
    returned map. *)
Fixpoint setBreakpointsLoop (p : string) (lines : list Z) : M (list Breakpoint) :=
  match lines with
  | [] => ret []
  | l :: rest =>
      e ← get;
      let bp := {| ID := nextBpID e; BpLine := l; Verified := verifyLine e l |} in
      modify (set_nextBpID (nextBpID e + 1));;
      modify (set_bps (<[p := default [] (bps e !! p) ++ [bp]]> (bps e)));;
      emit (OnBreakpointValidated (ID bp) (Verified bp));;
      res ← setBreakpointsLoop p rest;
      ret (bp :: res)
  end.

Definition SetBreakpoints (path : string) (lines : list Z) : M (list Breakpoint) :=
  let p := abs path in
  e ← get;
  modify (set_bps (<[p := []]> (bps e)));;
  setBreakpointsLoop p lines.

End WithAbs.

(** ** Registries *)



(** [SetDataBreakpoint]. *)
Definition SetDataBreakpoint (address access : string) (e : Engine) : Engine :=
  let access := if String.eqb access "readWrite" then "read write" else access in
  match dataBps e !! address with
  | Some cur =>
      if String.eqb cur access then e
      else set_dataBps (<[address := "read write"]> (dataBps e)) e
  | None => set_dataBps (<[address := access]> (dataBps e)) e
  end.

Definition ClearAllDataBreakpoints (e : Engine) : Engine := set_dataBps ∅ e.


Definition ClearInstructionBreakpoints (e : Engine) : Engine := set_instrBps ∅ e.

(** ** Per-line execution *)

(** The two instruction-pointer loops of [executeLine].  The pointer is
    moved first and the address it lands on is tested.  [fuel] bounds the
    number of iterations; [fwdFuel] and [backFuel] give the number the
    loop guard allows (see [walkFwd_spec] and [walkBack_spec]). *)
Fixpoint walkFwd (fuel : nat) (end_ : Z) (bpset : gset Z) (ip : Z) : Z * bool :=
  match fuel with
  | O => (ip, false)
  | S fuel' =>
      if ip <? end_ then
        let ip' := ip + 1 in
        if decide (ip' ∈ bpset) then (ip', true)
        else walkFwd fuel' end_ bpset ip'
      else (ip, false)
  end.

Fixpoint walkBack (fuel : nat) (start : Z) (bpset : gset Z) (ip : Z) : Z * bool :=
  match fuel with
  | O => (ip, false)
  | S fuel' =>
      if start <=? ip then
        let ip' := ip - 1 in
        if decide (ip' ∈ bpset) then (ip', true)
        else walkBack fuel' start bpset ip'
      else (ip, false)
  end.

Definition fwdFuel (end_ ip : Z) : nat := Z.to_nat (end_ - ip).
Definition backFuel (start ip : Z) : nat := Z.to_nat (ip - start + 1).

Definition walk (reverse : bool) (start end_ : Z) (bpset : gset Z) (ip : Z) : Z * bool :=
  if reverse then walkBack (backFuel start ip) start bpset ip
  else walkFwd (fwdFuel end_ ip) end_ bpset ip.

(** The classification of one [rwVarRe] match against the seen names. *)
Definition accessOf (m : Re.VarMatch) (vars : gset string) : option string :=
  match Re.vvalue m with
  | Some _ => if decide (Re.vname m ∈ vars) then Some "write" else None
  | None => if decide (Re.vname m ∈ vars) then Some "read" else None
  end.

(** [access != nil], a registered mode for the name, and
    [strings.Contains(flg, *access)]. *)
Definition hitsDataBp (dbps : gmap string string) (name : string)
    (access : option string) : bool :=
  match access with
  | Some a =>
      match dbps !! name with
      | Some flg => Str.contains flg a
      | None => false
      end
  | None => false
  end.

(** The loop over the matches of [rwVarRe]: the seen names and the locals
    after it, and whether it returned on a data breakpoint. *)
Fixpoint accessLoop (dbps : gmap string string) (ms : list Re.VarMatch)
    (vars : gset string) (locs : gmap string Value)
  : gset string * gmap string Value * bool :=
  match ms with
  | [] => (vars, locs, false)
  | m :: ms' =>
      let access := accessOf m vars in
      let vars' := match Re.vvalue m with
                   | Some _ => {[Re.vname m]} ∪ vars
                   | None => vars
                   end in
      let locs' := match Re.vvalue m with
                   | Some tok => <[Re.vname m := parseToken tok]> locs
                   | None => locs
                   end in
      if hitsDataBp dbps (Re.vname m) access then (vars', locs', true)
      else accessLoop dbps ms' vars' locs'
  end.

(** The output events of a line, in the order of the matches of [logRe]. *)
Definition outputsOf (file : string) (ln : Z) (text : string) : list Event :=
  List.map (fun m => OnOutput (Re.lcat m) (Re.lpayload m) file ln (Re.lstart m))
           (Re.findLogs text).

(** The exception step: [Some ex] when the line stops, with the name [ex]
    the event carries. *)
Definition exceptionStop (text : string) (named : option string) (others : bool)
  : option (option string) :=
  match Re.findExcName text with
  | Some g =>
      let ex := Str.TrimSpace g in
      if decide (named = Some ex) then Some (Some ex)
      else if others then Some None else None
  | None =>
      if Re.matchExcToken text && others then Some None else None
  end.

Fixpoint emitAll (evs : list Event) : M unit :=
  match evs with
  | [] => ret tt
  | ev :: evs' => emit ev;; emitAll evs'
  end.

(** [executeLine]. *)
Definition executeLine (ln : Z) (reverse : bool) : M bool :=
  e ← get;
  start ← index (starts e) ln;
  end_ ← index (ends e) ln;
  let '(ip, hit) := walk reverse start end_ (instrBps e) (instruction e) in
  modify (set_instruction ip);;
  if hit then
    emit (OnStopOnInstructionBreakpoint ln (currentCol e));; ret true
  else
    let text := Str.TrimSpace (getLine e ln) in
    let '(vars, locs, stop) :=
      accessLoop (dataBps e) (Re.findVars text) (variables e) (locals e) in
    modify (set_variables vars);;
    modify (set_locals locs);;
    if stop then
      emit (OnStopOnDataBreakpoint ln (currentCol e));; ret true
    else
      emitAll (outputsOf (sourceFile e) ln text);;
      match exceptionStop text (namedException e) (otherExceptions e) with
      | Some ex => emit (OnStopOnException ln ex (currentCol e));; ret true
      | None => ret false
      end.

(** ** Control operations *)

(** [updateCurrentLine]. *)
Definition updateCurrentLine (reverse : bool) : M bool :=
  e ← get;
  if reverse then
    if 0 <? currentLine e then
      modify (set_currentLine (currentLine e - 1));; ret false
    else
      modify (set_currentLine 0);;
      modify (set_currentCol None);;
      emit (OnStopOnEntry 0 None);;
      ret true
  else
    if currentLine e <? Z.of_nat (length (sourceLines e)) - 1 then
      modify (set_currentLine (currentLine e + 1));; ret false
    else
      modify (set_currentCol None);; ret true.

(** The loop of [findNextStatement] from line [ln]; it visits each line at
    most once, so [fuel] above the number of lines is never used up. *)
Fixpoint findLoop (fuel : nat) (reverse : bool) (ln : Z) : M bool :=
  match fuel with
  | O => outOfFuel
  | S fuel' =>
      e ← get;
      match (match bps e !! sourceFile e with
             | Some list => List.find (fun bp => BpLine bp =? ln) list
             | None => None
             end) with
      | Some bp =>
          (if Verified bp then ret tt else emit (OnBreakpointValidated (ID bp) true));;
          modify (set_currentLine ln);;
          emit (OnStopOnBreakpoint ln (currentCol e));;
          ret true
      | None =>
          addr ← (if reverse then index (starts e) ln
                  else en ← index (ends e) ln; ret (en - 1));
          if decide (addr ∈ instrBps e) then
            modify (set_currentLine ln);;
            emit (OnStopOnInstructionBreakpoint ln (currentCol e));;
            ret true
          else if negb (isBlank (getLine e ln)) then
            modify (set_currentLine ln);; ret false
          else if reverse then
            if ln <=? 0 then ret false else findLoop fuel' reverse (ln - 1)
          else
            if Z.of_nat (length (sourceLines e)) <=? ln + 1 then ret false
            else findLoop fuel' reverse (ln + 1)
      end
  end.

(** [findNextStatement]. *)
Definition findNextStatement (reverse : bool) : M bool :=
  e ← get;
  findLoop (S (length (sourceLines e))) reverse (currentLine e).

(** The first statement of [Continue] and [Next]: snap the instruction
    pointer to the boundary of the current line. *)
Definition normalize (reverse : bool) : M unit :=
  e ← get;
  if (0 <=? currentLine e) && (currentLine e <? Z.of_nat (length (starts e))) then
    if reverse then
      end_ ← index (ends e) (currentLine e);
      modify (set_instruction (if 0 <? end_ then end_ - 1 else 0))
    else
      start ← index (starts e) (currentLine e);
      modify (set_instruction start)
  else ret tt.

(** The unbounded [for] of [Continue]. *)
Fixpoint continueLoop (fuel : nat) (reverse : bool) : M unit :=
  match fuel with
  | O => outOfFuel
  | S fuel' =>
      e ← get;
      if paused e then
        modify (set_paused false);;
        emit (OnStopOnPause (currentLine e) (currentCol e))
      else
        stopped ← executeLine (currentLine e) reverse;
        if stopped then ret tt
        else
          atEnd ← updateCurrentLine reverse;
          if atEnd then emit OnEnd
          else
            found ← findNextStatement reverse;
            if found then ret tt else continueLoop fuel' reverse
  end.

(** [Continue]: every iteration that does not return moves [currentLine]
    by at least one line, so one more iteration than there are lines is
    enough. *)
Definition Continue (reverse : bool) : M unit :=
  normalize reverse;;
  modify (set_paused false);;
  e ← get;
  continueLoop (S (length (sourceLines e))) reverse.

(** [Next]. *)
Definition Next (reverse : bool) : M unit :=
  normalize reverse;;
  e ← get;
  stopped ← executeLine (currentLine e) reverse;
  if stopped then ret tt
  else
    atEnd ← updateCurrentLine reverse;
    (if atEnd then ret tt else _ ← findNextStatement reverse; ret tt);;
    e' ← get;
    emit (OnStopOnStep (currentLine e') (currentCol e')).

(** [StepIn]. *)
Definition StepIn (targetID : option Z) : M unit :=
  e ← get;
  match targetID with
  | Some t => modify (set_currentCol (Some t))
  | None =>
      match currentCol e with
      | Some c => modify (set_currentCol (Some (c + 1)))
      | None => modify (set_currentCol (Some 1))
      end
  end;;
  e' ← get;
  emit (OnStopOnStep (currentLine e') (currentCol e')).

(** [StepOut]. *)
Definition StepOut : M unit :=
  e ← get;
  match currentCol e with
  | Some c =>
      let v := c - 1 in
      modify (set_currentCol (if v <=? 0 then None else Some v))
  | None => ret tt
  end;;
  e' ← get;
  emit (OnStopOnStep (currentLine e') (currentCol e')).

(** [Pause]. *)
Definition Pause : M unit :=
  e ← get;
  if paused e then ret tt
  else
    modify (set_paused true);;
    emit (OnOutput "stdout" (Str.TrimSpace (getLine e (currentLine e)))
                   (sourceFile e) (currentLine e) 0);;
    emit (OnStopOnPause (currentLine e) (currentCol e)).

(** Running a method on a state. *)
Definition run {A} (m : M A) (e : Engine) : Result (A * Engine * list Event) := m e.

(** ** The sibling engines, where they differ from the Go engine

    The C# engine ([RuntimeEngine]) and the TypeScript engine
    ([MockRuntime] of [mock-ts/src/runtime.ts]) keep the same fields; the
    methods below are the ones whose behaviour the properties compare with
    the Go engine.  Lengths are those of ASCII text. *)

Module CSharp.

(** [VerifyLine]: [Math.Clamp] moves an out-of-range line to the nearest
    line of the document. *)
Definition VerifyLine (e : Engine) (line : Z) : bool :=
  match sourceLines e with
  | [] => false
  | _ :: _ =>
      let idx := Z.max 0 (Z.min line (Z.of_nat (length (sourceLines e)) - 1)) in
      negb (isBlank (getLine e idx))
  end.

(** [StepIn]: [Math.Min(sourceLines[currentLine].Length, currentColumn + 1)];
    the step event is sent without the column. *)
Definition StepIn (targetId : option Z) : M unit :=
  e ← get;
  match targetId with
  | Some t => modify (set_currentCol (Some t))
  | None =>
      match currentCol e with
      | Some c =>
          line ← index (sourceLines e) (currentLine e);
          modify (set_currentCol (Some (Z.min (Str.len line) (c + 1))))
      | None => modify (set_currentCol (Some 1))
      end
  end;;
  e' ← get;
  emit (OnStopOnStep (currentLine e') None).

End CSharp.

Module TS.

(** [pause]: no paused flag and no output event. *)
Definition pause : M unit :=
  e ← get;
  emit (OnStopOnPause (currentLine e) (currentCol e)).

(** [stepIn]: the column moves while it is at most the length of the
    line. *)
Definition stepIn (targetId : option Z) : M unit :=
  e ← get;
  match targetId with
  | Some t => modify (set_currentCol (Some t))
  | None =>
      match currentCol e with
      | Some c =>
          line ← index (sourceLines e) (currentLine e);
          if c <=? Str.len line then modify (set_currentCol (Some (c + 1)))
          else ret tt
      | None => modify (set_currentCol (Some 1))
      end
  end;;
  e' ← get;
  emit (OnStopOnStep (currentLine e') (currentCol e')).

(** [setVariable] on the one map [variables], which [executeLine] also
    asks, with [has], whether a name was seen. *)
Definition setVariable (name : string) (value : Value) (vars : gmap string Value)
  : gmap string Value :=
  <[name := value]> vars.

Definition has (vars : gmap string Value) (name : string) : bool :=
  bool_decide (is_Some (vars !! name)).

(** The access of a bare reference [$name] in [executeLine]. *)
Definition bareAccess (vars : gmap string Value) (name : string) : option string :=
  if has vars name then Some "read" else None.

End TS.

(** ** Definitions used in the statements *)

(** Documents and states of the worked examples. *)
Definition nl : string := String Str.linefeed EmptyString.

(** The five lines: an empty line, [log(hello)], [$x=1], [$x] and
    [exception(Err)]. *)
Definition scenario : string :=
  nl +:+ "log(hello)" +:+ nl +:+ "$x=1" +:+ nl +:+ "$x" +:+ nl +:+ "exception(Err)" +:+ nl.

(** [filepath.Abs] on a path that is already absolute and clean. *)
Definition sameAbs (p : string) : string := p.

Definition loaded (contents : string) : Engine :=
  LoadSource sameAbs "/doc.md" contents New.

(** The state a method leaves, for chaining calls in examples; a panic
    leaves no state. *)
Definition after {A} (m : M A) (e : Engine) : Engine :=
  match run m e with
  | Ok (_, e', _) => e'
  | _ => e
  end.



(** The state of the counterexample to the pre-emption of a whole line:
    on the document [$x=1], [$x], one [Next] has moved to line 1 (and seen
    [x]); then an instruction breakpoint is set on address 1, the first
    address of line 1, and a data breakpoint on reads of [x]. *)
Definition twoLines : string := "$x=1" +:+ nl +:+ "$x".






(** The [start, end) pairs the loading loop records for [lines] when
    [base] instructions precede them. *)
Fixpoint rangesFrom (base : Z) (lines : list string) : list (Z * Z) :=
  match lines with
  | [] => []
  | line :: rest =>
      let n := base + Z.of_nat (length (Re.findWords line)) in
      (base, n) :: rangesFrom n rest
  end.

(** The two lookups of one iteration of [findNextStatement]: the first
    breakpoint registered for the line, and the boundary address tested
    against the instruction breakpoints. *)
Definition bpAt (e : Engine) (ln : Z) : option Breakpoint :=
  match bps e !! sourceFile e with
  | Some list => List.find (fun bp => BpLine bp =? ln) list
  | None => None
  end.

Definition boundaryAddr (e : Engine) (reverse : bool) (ln : Z) : option Z :=
  if reverse then at_ (starts e) ln
  else match at_ (ends e) ln with
       | Some en => Some (en - 1)
       | None => None
       end.

(** The cursor is on a line of the document, or on line 0 of the empty
    document. *)
Definition positioned (e : Engine) : Prop :=
  0 <= currentLine e <= Z.of_nat (length (sourceLines e)).

(** ** Proof support *)

Ltac unfold_m :=
  cbv beta iota delta [run bind get modify emit ret panic outOfFuel index].


(** ** Checks of the matchers *)

Module ReTests.
Import Str Re.

Example words_1 :
  findWords "log(hello) x9y" = [(0, "log"); (4, "hello"); (11, "x"); (13, "y")].
Proof. reflexivity. Qed.

Example vars_1 :
  findVars "$x=1 $y $z=true $w=tr $q=12.5. $r=3.x" =
  [ {| vname := "x"; vvalue := Some "1" |};
    {| vname := "y"; vvalue := None |};
    {| vname := "z"; vvalue := Some "true" |};
    {| vname := "w"; vvalue := None |};
    {| vname := "q"; vvalue := Some "12.5" |};
    {| vname := "r"; vvalue := Some "3" |} ].
Proof. reflexivity. Qed.

Example vars_2 :
  findVars "$a={x} $b={y} $9 $" =
  [ {| vname := "a"; vvalue := Some "{x} $b={y}" |} ].
Proof. reflexivity. Qed.

Example logs_1 :
  findLogs "errlog(a b) out() prio(x err(y)" =
  [ {| lcat := "log"; lpayload := "a b"; lstart := 3 |};
    {| lcat := "out"; lpayload := ""; lstart := 12 |};
    {| lcat := "prio"; lpayload := "x err(y"; lstart := 18 |} ].
Proof. reflexivity. Qed.

Example exc_1 : findExcName "an exception( Err ) here)" = Some " Err ) here".
Proof. reflexivity. Qed.

Example exc_2 : findExcName "exception(Err" = None.
Proof. reflexivity. Qed.

Example exc_3 :
  matchExcToken "exceptions" = false /\ matchExcToken "an exception!" = true
  /\ matchExcToken "my_exception" = false /\ matchExcToken "exception(Err)" = true.
Proof. repeat split; reflexivity. Qed.

Example trim_1 : TrimSpace "   a b  " = "a b" /\ TrimSpace "    " = "".
Proof. split; reflexivity. Qed.

End ReTests.

(** ** The worked scenario *)


(** ** Pause *)





(** ** Next *)

(** C2, evaluated where the engine departs from it.  Stepping back on
    line 0 sends the entry stop of [updateCurrentLine] and then the step
    stop; stepping onto a line that carries a breakpoint sends the
    breakpoint stop of [findNextStatement] and then the step stop: two
    stop events for one [Next]. *)
Theorem Next_sends_two_stops :
  let e1 := loaded "a" in
  let e2 := after (SetBreakpoints sameAbs "/doc.md" [1]) (loaded ("a" +:+ nl +:+ "b")) in
  events (run (Next true) e1) = [OnStopOnEntry 0 None; OnStopOnStep 0 None]
  /\ length (stops (events (run (Next true) e1))) = 2%nat
  /\ events (run (Next false) e2) = [OnStopOnBreakpoint 1 None; OnStopOnStep 1 None]
  /\ length (stops (events (run (Next false) e2))) = 2%nat.
Proof.
  cbv zeta. repeat split; vm_compute; reflexivity.
Qed.

(** ** StepIn and StepOut *)

Lemma StepIn_target (e : Engine) (t : Z) :
  run (StepIn (Some t)) e
  = Ok (tt, set_currentCol (Some t) e, [OnStopOnStep (currentLine e) (Some t)]).
Proof. reflexivity. Qed.

Lemma StepIn_unset (e : Engine) :
  currentCol e = None ->
  run (StepIn None) e
  = Ok (tt, set_currentCol (Some 1) e, [OnStopOnStep (currentLine e) (Some 1)]).
Proof. intros H. unfold StepIn. unfold_m. rewrite H. reflexivity. Qed.

Lemma StepIn_set (e : Engine) (c : Z) :
  currentCol e = Some c ->
  run (StepIn None) e
  = Ok (tt, set_currentCol (Some (c + 1)) e, [OnStopOnStep (currentLine e) (Some (c + 1))]).
Proof. intros H. unfold StepIn. unfold_m. rewrite H. reflexivity. Qed.

Lemma StepOut_set (e : Engine) (c : Z) :
  currentCol e = Some c ->
  let col := if c - 1 <=? 0 then None else Some (c - 1) in
  run StepOut e = Ok (tt, set_currentCol col e, [OnStopOnStep (currentLine e) col]).
Proof. intros H. unfold StepOut. unfold_m. rewrite H. reflexivity. Qed.

Lemma StepOut_unset (e : Engine) :
  currentCol e = None ->
  run StepOut e = Ok (tt, e, [OnStopOnStep (currentLine e) None]).
Proof. intros H. unfold StepOut. unfold_m. rewrite H. cbn. rewrite H. reflexivity. Qed.

(** C7, evaluated where the engine departs from it.  [StepIn] without a
    target adds one to a set column whatever the length of the current
    line: on the one-line document [ab] three calls leave the column at 3,
    past the two bytes of the line; each call sends one step event and
    leaves the current line alone. *)
Theorem StepIn_exceeds_line_length :
  let e := loaded "ab" in
  let e3 := after (StepIn None) (after (StepIn None) (after (StepIn None) e)) in
  getLine e (currentLine e) = "ab"
  /\ Str.len (getLine e (currentLine e)) = 2
  /\ currentCol e3 = Some 3
  /\ currentLine e3 = currentLine e
  /\ events (run (StepIn None;; StepIn None;; StepIn None) e)
     = [OnStopOnStep 0 (Some 1); OnStopOnStep 0 (Some 2); OnStopOnStep 0 (Some 3)].
Proof.
  cbv zeta. repeat split; vm_compute; reflexivity.
Qed.

(** ** Before any source is loaded *)

(** C9, evaluated where the engine departs from it.  On the engine [New]
    returns, [Continue] and [Next] panic in both directions: [executeLine]
    reads [starts[0]] of the empty slice.  [StepIn], [StepOut] and [Pause]
    return, and [getLine] gives the empty string. *)
Theorem stepping_before_load_panics :
  run (Continue false) New = Panic
  /\ run (Continue true) New = Panic
  /\ run (Next false) New = Panic
  /\ run (Next true) New = Panic
  /\ run (executeLine 0 false) New = Panic
  /\ getLine New (currentLine New) = ""
  /\ events (run (StepIn None) New) = [OnStopOnStep 0 (Some 1)]
  /\ events (run StepOut New) = [OnStopOnStep 0 None]
  /\ events (run Pause New) = [OnOutput "stdout" "" "" 0 0; OnStopOnPause 0 None].
Proof.
  repeat split; vm_compute; reflexivity.
Qed.

(** ** Loading a source: the per-line ranges *)

Lemma getWords_length (l : Z) (line : string) :
  length (getWords l line) = length (Re.findWords line).
Proof. unfold getWords. apply length_map. Qed.

Lemma indexLines_ranges (lines : list string) :
  forall (i : Z) (ins : list Word) (ss es : list Z),
    snd (fst (indexLines i lines ins ss es))
    = ss ++ List.map fst (rangesFrom (Z.of_nat (length ins)) lines)
    /\ snd (indexLines i lines ins ss es)
       = es ++ List.map snd (rangesFrom (Z.of_nat (length ins)) lines).
Proof.
  induction lines as [| line rest IH]; intros i ins ss es; simpl.
  - rewrite !app_nil_r. split; reflexivity.
  - destruct (IH (i + 1) (ins ++ getWords i line)
                 (ss ++ [Z.of_nat (length ins)])
                 (es ++ [Z.of_nat (length (ins ++ getWords i line))])) as [Hs He].
    rewrite Hs, He.
    rewrite length_app, getWords_length, Nat2Z.inj_add.
    rewrite <- !app_assoc. split; reflexivity.
Qed.

Lemma rangesFrom_length (lines : list string) :
  forall base, length (rangesFrom base lines) = length lines.
Proof.
  induction lines as [| line rest IH]; intros base; simpl; [reflexivity |].
  rewrite IH. reflexivity.
Qed.

Lemma rangesFrom_base (lines : list string) :
  forall base k s en, rangesFrom base lines !! k = Some (s, en) -> base <= s.
Proof.
  induction lines as [| line rest IH]; intros base k s en H; simpl in H.
  - rewrite lookup_nil in H. discriminate.
  - destruct k as [| k]; simpl in H.
    + injection H as <- _. lia.
    + apply IH in H. lia.
Qed.

Lemma rangesFrom_lookup (lines : list string) :
  forall base k line,
    lines !! k = Some line ->
    exists s en,
      rangesFrom base lines !! k = Some (s, en)
      /\ en = s + Z.of_nat (length (Re.findWords line))
      /\ (forall s' en', rangesFrom base lines !! S k = Some (s', en') -> s' = en).
Proof.
  induction lines as [| l rest IH]; intros base k line H.
  - rewrite lookup_nil in H. discriminate.
  - destruct k as [| k]; simpl in H.
    + injection H as ->. simpl. eexists _, _. split; [reflexivity |]. split; [reflexivity |].
      intros s' en' H'. destruct rest as [| l' rest']; simpl in H'.
      * discriminate H'.
      * injection H' as <- _. reflexivity.
    + simpl. apply (IH (base + Z.of_nat (length (Re.findWords l)))) in H.
      exact H.
Qed.

Lemma isSpace_not_letter (c : ascii) : Str.isSpace c = true -> Str.isLetter c = false.
Proof.
  destruct c as [[] [] [] [] [] [] [] []]; vm_compute; intros H;
    first [reflexivity | discriminate H].
Qed.

Lemma trimRight_head_kept (c : ascii) (s : string) :
  Str.isSpace c = false -> Str.trimRight (String c s) <> EmptyString.
Proof.
  intros H. simpl. destruct (Str.trimRight s); [rewrite H |]; discriminate.
Qed.

Lemma blank_scanWords (s : string) :
  Str.TrimSpace s = EmptyString -> forall pos, Re.scanWords s pos None = [].
Proof.
  induction s as [| c s IH]; intros H pos; [reflexivity |].
  unfold Str.TrimSpace in H. simpl in H.
  destruct (Str.isSpace c) eqn:Hc.
  - simpl. rewrite (isSpace_not_letter c Hc). apply IH. exact H.
  - exfalso. exact (trimRight_head_kept c s Hc H).
Qed.

Lemma blank_no_words (l : Z) (line : string) :
  isBlank line = true -> getWords l line = [].
Proof.
  unfold isBlank. intros H.
  destruct (Str.TrimSpace line) eqn:Ht; [| discriminate].
  unfold getWords, Re.findWords. rewrite (blank_scanWords line Ht). reflexivity.
Qed.

Lemma at_lookup {A} (l : list A) (i : Z) (x : A) :
  at_ l i = Some x <-> 0 <= i /\ l !! Z.to_nat i = Some x.
Proof.
  unfold at_. destruct (Z.ltb_spec i 0); split.
  - discriminate.
  - intros [? _]. lia.
  - intros. split; [lia | assumption].
  - intros [_ ?]. assumption.
Qed.

(** C8. After [LoadSource], on whatever engine state and for whatever
    text, the range arrays have one entry per line and, for every line
    [L] of the document, [starts[L] <= ends[L]], the two differ by the
    number of words of the line (so they are equal on a blank or word-less
    line), and [ends[L] <= starts[L+1]] when line [L+1] exists. *)
Theorem LoadSource_ranges_ordered (abs : string -> string) (path contents : string)
    (e0 : Engine) :
  let e := LoadSource abs path contents e0 in
  length (starts e) = length (sourceLines e)
  /\ length (ends e) = length (sourceLines e)
  /\ forall (L : Z) (line : string),
       at_ (sourceLines e) L = Some line ->
       exists s en,
         at_ (starts e) L = Some s /\ at_ (ends e) L = Some en
         /\ s <= en
         /\ en - s = Z.of_nat (length (getWords L line))
         /\ (isBlank line = true -> s = en)
         /\ (forall s', at_ (starts e) (L + 1) = Some s' -> en <= s').
Proof.
  cbv zeta. unfold LoadSource.
  destruct (indexLines_ranges (splitLines contents) 0 [] [] []) as [Hs He].
  destruct (indexLines 0 (splitLines contents) [] [] []) as [[ins ss] es].
  simpl in Hs, He. subst ss es. simpl.
  change (Z.of_nat 0) with 0.
  set (lines := splitLines contents).
  set (rs := rangesFrom 0 lines).
  split; [| split].
  - rewrite length_map. apply rangesFrom_length.
  - rewrite length_map. apply rangesFrom_length.
  - intros L line HL. apply at_lookup in HL as [HL0 HL].
    destruct (rangesFrom_lookup lines 0 (Z.to_nat L) line HL) as (s & en & Hr & Hen & Hnext).
    fold rs in Hr, Hnext.
    exists s, en.
    assert (Hst : at_ (List.map fst rs) L = Some s).
    { apply at_lookup. split; [assumption |]. rewrite list_lookup_fmap, Hr. reflexivity. }
    assert (Hend : at_ (List.map snd rs) L = Some en).
    { apply at_lookup. split; [assumption |]. rewrite list_lookup_fmap, Hr. reflexivity. }
    split; [exact Hst |]. split; [exact Hend |].
    split; [lia |]. split; [rewrite getWords_length; lia |].
    split.
    + intros Hb. apply (blank_no_words L) in Hb.
      assert (Hl : length (getWords L line) = 0%nat) by (rewrite Hb; reflexivity).
      rewrite getWords_length in Hl. lia.
    + intros s' Hs'. apply at_lookup in Hs' as [_ Hs'].
      replace (Z.to_nat (L + 1)) with (S (Z.to_nat L)) in Hs' by lia.
      rewrite list_lookup_fmap in Hs'.
      destruct (rs !! S (Z.to_nat L)) as [[s1 en1] |] eqn:Hr'; [| simpl in Hs'; discriminate].
      simpl in Hs'. injection Hs' as <-.
      rewrite (Hnext s1 en1 eq_refl). lia.
Qed.

Lemma LoadSource_ranges_ordered_witness :
  at_ (sourceLines (loaded scenario)) 1 = Some "log(hello)"
  /\ exists s en,
       at_ (starts (loaded scenario)) 1 = Some s
       /\ at_ (ends (loaded scenario)) 1 = Some en
       /\ s <= en.
Proof.
  split; [reflexivity |].
  destruct (LoadSource_ranges_ordered sameAbs "/doc.md" scenario New) as (_ & _ & H).
  destruct (H 1 "log(hello)" eq_refl) as (s & en & Hs & He & Hle & _).
  exists s, en. split; [exact Hs |]. split; [exact He | exact Hle].
Defined.

(** ** SetBreakpoints *)








(** ** executeLine, step by step *)

Lemma emitAll_run (evs : list Event) (e : Engine) :
  emitAll evs e = Ok (tt, e, evs).
Proof.
  induction evs as [| ev evs IH]; [reflexivity |].
  simpl. unfold bind, emit. rewrite IH. reflexivity.
Qed.

(** The result of [executeLine] on a line of the document, read off the
    four steps of the method. *)
Lemma executeLine_steps (e : Engine) (ln : Z) (reverse : bool) (start end_ : Z) :
  at_ (starts e) ln = Some start ->
  at_ (ends e) ln = Some end_ ->
  run (executeLine ln reverse) e
  = let '(ip, hit) := walk reverse start end_ (instrBps e) (instruction e) in
    if hit then
      Ok (true, set_instruction ip e, [OnStopOnInstructionBreakpoint ln (currentCol e)])
    else
      let text := Str.TrimSpace (getLine e ln) in
      let '(vars, locs, stop) :=
        accessLoop (dataBps e) (Re.findVars text) (variables e) (locals e) in
      let e2 := set_locals locs (set_variables vars (set_instruction ip e)) in
      if stop then Ok (true, e2, [OnStopOnDataBreakpoint ln (currentCol e)])
      else
        match exceptionStop text (namedException e) (otherExceptions e) with
        | Some ex =>
            Ok (true, e2,
                outputsOf (sourceFile e) ln text ++ [OnStopOnException ln ex (currentCol e)])
        | None => Ok (false, e2, outputsOf (sourceFile e) ln text)
        end.
Proof.
  intros Hs He. unfold executeLine. unfold_m. rewrite Hs, He. cbv beta iota.
  destruct (walk reverse start end_ (instrBps e) (instruction e)) as [ip hit].
  destruct hit; [reflexivity |].
  destruct (accessLoop (dataBps e) (Re.findVars (Str.TrimSpace (getLine e ln)))
              (variables e) (locals e)) as [[vars locs] stop].
  destruct stop; [reflexivity |].
  rewrite emitAll_run.
  destruct (exceptionStop (Str.TrimSpace (getLine e ln)) (namedException e)
              (otherExceptions e)) as [ex |]; cbn [app]; [reflexivity |].
  rewrite app_nil_r. reflexivity.
Qed.

(** ** The instruction-pointer walk *)





(** ** The loops return *)

(** One iteration of the loop of [findNextStatement]. *)
Lemma findLoop_step (fuel : nat) (reverse : bool) (ln : Z) (e : Engine) :
  findLoop (S fuel) reverse ln e
  = match bpAt e ln with
    | Some bp =>
        Ok (true, set_currentLine ln e,
            (if Verified bp then [] else [OnBreakpointValidated (ID bp) true])
              ++ [OnStopOnBreakpoint ln (currentCol e)])
    | None =>
        match boundaryAddr e reverse ln with
        | None => Panic
        | Some addr =>
            if decide (addr ∈ instrBps e) then
              Ok (true, set_currentLine ln e,
                  [OnStopOnInstructionBreakpoint ln (currentCol e)])
            else if negb (isBlank (getLine e ln)) then
              Ok (false, set_currentLine ln e, [])
            else if reverse then
              if ln <=? 0 then Ok (false, e, []) else findLoop fuel reverse (ln - 1) e
            else
              if Z.of_nat (length (sourceLines e)) <=? ln + 1 then Ok (false, e, [])
              else findLoop fuel reverse (ln + 1) e
        end
    end.
Proof.
  simpl findLoop. unfold_m. unfold bpAt, boundaryAddr.
  destruct (match bps e !! sourceFile e with
            | Some list => List.find (fun bp => BpLine bp =? ln) list
            | None => None
            end) as [bp |].
  - destruct (Verified bp); reflexivity.
  - destruct reverse.
    + destruct (at_ (starts e) ln) as [addr |]; [| reflexivity].
      destruct (decide (addr ∈ instrBps e)); [reflexivity |].
      destruct (negb (isBlank (getLine e ln))); [reflexivity |].
      destruct (ln <=? 0); [reflexivity |].
      destruct (findLoop fuel true (ln - 1) e) as [[[b e2] evs2] | |]; reflexivity.
    + destruct (at_ (ends e) ln) as [en |]; [| reflexivity].
      cbn [app].
      destruct (decide (en - 1 ∈ instrBps e)); [reflexivity |].
      destruct (negb (isBlank (getLine e ln))); [reflexivity |].
      destruct (Z.of_nat (length (sourceLines e)) <=? ln + 1); [reflexivity |].
      destruct (findLoop fuel false (ln + 1) e) as [[[b e2] evs2] | |]; reflexivity.
Qed.

(** With fuel above the number of lines still ahead, the loop of
    [findNextStatement] returns or panics; when it returns, the document is
    the same and the current line is unchanged or one of the visited
    lines. *)
Lemma findLoop_returns (reverse : bool) (fuel : nat) :
  forall (ln : Z) (e : Engine),
    (0 < fuel)%nat ->
    (if reverse then ln < Z.of_nat fuel
     else Z.of_nat (length (sourceLines e)) - ln <= Z.of_nat fuel) ->
    match findLoop fuel reverse ln e with
    | OutOfFuel => False
    | Panic => True
    | Ok (_, e', _) =>
        sourceLines e' = sourceLines e
        /\ (currentLine e' = currentLine e
            \/ if reverse
               then (0 <= ln -> 0 <= currentLine e') /\ currentLine e' <= ln
               else ln <= currentLine e'
                    /\ (ln < Z.of_nat (length (sourceLines e)) ->
                        currentLine e' < Z.of_nat (length (sourceLines e))))
    end.
Proof.
  induction fuel as [| fuel IH]; intros ln e Hpos Hfuel; [lia |].
  rewrite findLoop_step.
  destruct (bpAt e ln) as [bp |].
  { split; [reflexivity |]. right. destruct reverse; simpl; lia. }
  destruct (boundaryAddr e reverse ln) as [addr |]; [| exact I].
  destruct (decide (addr ∈ instrBps e)).
  { split; [reflexivity |]. right. destruct reverse; simpl; lia. }
  destruct (negb (isBlank (getLine e ln))).
  { split; [reflexivity |]. right. destruct reverse; simpl; lia. }
  destruct reverse.
  - destruct (Z.leb_spec ln 0) as [Hle | Hgt].
    { split; [reflexivity |]. left. reflexivity. }
    specialize (IH (ln - 1) e ltac:(lia) ltac:(lia)).
    destruct (findLoop fuel true (ln - 1) e) as [[[b e'] evs] | |]; [| exact I | exact IH].
    destruct IH as [Hsrc [Hsame | [H0 Hle]]].
    + split; [exact Hsrc |]. left. exact Hsame.
    + split; [exact Hsrc |]. right. split; [intros _; apply H0; lia | lia].
  - destruct (Z.leb_spec (Z.of_nat (length (sourceLines e))) (ln + 1)) as [Hle | Hgt].
    { split; [reflexivity |]. left. reflexivity. }
    specialize (IH (ln + 1) e ltac:(lia) ltac:(lia)).
    destruct (findLoop fuel false (ln + 1) e) as [[[b e'] evs] | |]; [| exact I | exact IH].
    destruct IH as [Hsrc [Hsame | [H0 Hlt]]].
    + split; [exact Hsrc |]. left. exact Hsame.
    + split; [exact Hsrc |]. right. split; [lia | intros _; apply Hlt; lia].
Qed.

Lemma findNextStatement_run (reverse : bool) (e : Engine) :
  findNextStatement reverse e
  = findLoop (S (length (sourceLines e))) reverse (currentLine e) e.
Proof.
  unfold findNextStatement. unfold_m.
  destruct (findLoop _ reverse (currentLine e) e) as [[[b e2] evs2] | |]; reflexivity.
Qed.

(** [executeLine] returns or panics and leaves the cursor's line and the
    document alone. *)
Lemma executeLine_returns (ln : Z) (reverse : bool) (e : Engine) :
  match executeLine ln reverse e with
  | OutOfFuel => False
  | Panic => True
  | Ok (_, e', _) => sourceLines e' = sourceLines e /\ currentLine e' = currentLine e
  end.
Proof.
  destruct (at_ (starts e) ln) as [start |] eqn:Hs.
  - destruct (at_ (ends e) ln) as [end_ |] eqn:He.
    + pose proof (executeLine_steps e ln reverse start end_ Hs He) as H.
      unfold run in H. rewrite H. clear H.
      destruct (walk _ _ _ _ _) as [ip [|]]; [split; reflexivity |].
      cbv zeta. destruct (accessLoop _ _ _ _) as [[vars locs] [|]]; [split; reflexivity |].
      destruct (exceptionStop _ _ _); split; reflexivity.
    + unfold executeLine. unfold_m. rewrite Hs, He. exact I.
  - unfold executeLine. unfold_m. rewrite Hs. exact I.
Qed.

(** [updateCurrentLine] returns; when it answers false it has moved the
    cursor by one line inside the document. *)
Lemma updateCurrentLine_returns (reverse : bool) (e : Engine) :
  exists atEnd e' evs,
    updateCurrentLine reverse e = Ok (atEnd, e', evs)
    /\ sourceLines e' = sourceLines e
    /\ (atEnd = false ->
        if reverse then 0 < currentLine e /\ currentLine e' = currentLine e - 1
        else currentLine e < Z.of_nat (length (sourceLines e)) - 1
             /\ currentLine e' = currentLine e + 1).
Proof.
  unfold updateCurrentLine. unfold_m. destruct reverse.
  - destruct (Z.ltb_spec 0 (currentLine e)) as [Hlt | Hge]; eexists _, _, _;
      (split; [reflexivity |]); (split; [reflexivity |]); intros Hf;
      [split; [assumption | reflexivity] | discriminate Hf].
  - destruct (Z.ltb_spec (currentLine e) (Z.of_nat (length (sourceLines e)) - 1))
      as [Hlt | Hge];
      eexists _, _, _;
      (split; [reflexivity |]); (split; [reflexivity |]); intros Hf;
      [split; [assumption | reflexivity] | discriminate Hf].
Qed.

(** The loop of [Continue] returns or panics when it has one unit of fuel
    per line still ahead of the cursor. *)
Lemma continueLoop_returns (reverse : bool) (fuel : nat) :
  forall e : Engine,
    positioned e ->
    (0 < fuel)%nat ->
    (if reverse then currentLine e < Z.of_nat fuel
     else Z.of_nat (length (sourceLines e)) - currentLine e <= Z.of_nat fuel) ->
    continueLoop fuel reverse e <> OutOfFuel.
Proof.
  unfold positioned.
  induction fuel as [| fuel IH]; intros e Hp Hpos Hfuel; [lia |].
  simpl continueLoop. unfold_m.
  destruct (paused e); [discriminate |].
  pose proof (executeLine_returns (currentLine e) reverse e) as Hex.
  destruct (executeLine (currentLine e) reverse e) as [[[stopped e1] evs1] | |];
    [| discriminate | contradiction].
  destruct Hex as [Hsrc1 Hcur1].
  destruct stopped; [discriminate |].
  destruct (updateCurrentLine_returns reverse e1) as (atEnd & e2 & evs2 & Hup & Hsrc2 & Hmove).
  rewrite Hup.
  destruct atEnd; [discriminate |].
  specialize (Hmove eq_refl).
  rewrite findNextStatement_run.
  pose proof (findLoop_returns reverse (S (length (sourceLines e2))) (currentLine e2) e2
                ltac:(lia)) as Hfind.
  assert (Hlen : sourceLines e2 = sourceLines e) by congruence.
  destruct reverse.
  - destruct Hmove as [Hgt Hcur2].
    specialize (Hfind ltac:(rewrite Hlen; lia)).
    destruct (findLoop _ true (currentLine e2) e2) as [[[found e3] evs3] | |];
      [| discriminate | contradiction].
    destruct found; [discriminate |].
    destruct Hfind as [Hsrc3 Hcur3].
    assert (0 <= currentLine e3 <= currentLine e2) as Hrange
      by (destruct Hcur3 as [-> | [H0 Hle]]; lia).
    specialize (IH e3 ltac:(rewrite Hsrc3, Hlen; lia) ltac:(lia) ltac:(lia)).
    destruct (continueLoop fuel true e3) as [[[u e4] evs4] | |];
      [discriminate | discriminate | contradiction].
  - destruct Hmove as [Hlt Hcur2].
    specialize (Hfind ltac:(lia)).
    destruct (findLoop _ false (currentLine e2) e2) as [[[found e3] evs3] | |];
      [| discriminate | contradiction].
    destruct found; [discriminate |].
    destruct Hfind as [Hsrc3 Hcur3].
    assert (currentLine e2 <= currentLine e3 < Z.of_nat (length (sourceLines e2))) as Hrange
      by (destruct Hcur3 as [-> | [H0 Hlt']]; rewrite ?Hlen, ?Hsrc1 in *; lia).
    assert (Hfuel' : Z.of_nat (length (sourceLines e3)) - currentLine e3 <= Z.of_nat fuel)
      by (rewrite Hsrc3, Hlen in *; rewrite Hsrc1 in *; lia).
    assert (Hpos' : (0 < fuel)%nat)
      by (rewrite Hsrc3, Hlen in *; rewrite Hsrc1 in *; lia).
    specialize (IH e3 ltac:(rewrite Hsrc3 in *; lia) Hpos' Hfuel').
    destruct (continueLoop fuel false e3) as [[[u e4] evs4] | |];
      [discriminate | discriminate | contradiction].
Qed.

(** [Continue] and [Next] never use up the fuel of the embedding: from a
    cursor inside the document they return or panic. *)
Lemma Continue_returns (reverse : bool) (e : Engine) :
  positioned e -> run (Continue reverse) e <> OutOfFuel.
Proof.
  intros Hp. unfold run, Continue, normalize. unfold_m.
  assert (Hloop : forall ip, continueLoop (S (length (sourceLines e))) reverse
                    (set_paused false (set_instruction ip e)) <> OutOfFuel).
  { intros ip. apply continueLoop_returns.
    - exact Hp.
    - lia.
    - unfold positioned in Hp. destruct reverse; simpl; lia. }
  assert (Hloop' : continueLoop (S (length (sourceLines e))) reverse (set_paused false e)
                   <> OutOfFuel).
  { apply continueLoop_returns.
    - exact Hp.
    - lia.
    - unfold positioned in Hp. destruct reverse; simpl; lia. }
  destruct ((0 <=? currentLine e) && (currentLine e <? Z.of_nat (length (starts e)))).
  - destruct reverse.
    + destruct (at_ (ends e) (currentLine e)) as [en |]; [| discriminate].
      cbn [app]. specialize (Hloop (if 0 <? en then en - 1 else 0)).
      change (sourceLines (set_paused false (set_instruction (if 0 <? en then en - 1 else 0) e)))
        with (sourceLines e).
      destruct (continueLoop _ true _) as [[[u e4] evs4] | |];
        [discriminate | discriminate | contradiction].
    + destruct (at_ (starts e) (currentLine e)) as [st |]; [| discriminate].
      cbn [app]. specialize (Hloop st).
      change (sourceLines (set_paused false (set_instruction st e))) with (sourceLines e).
      destruct (continueLoop _ false _) as [[[u e4] evs4] | |];
        [discriminate | discriminate | contradiction].
  - change (sourceLines (set_paused false e)) with (sourceLines e).
    destruct (continueLoop _ reverse _) as [[[u e4] evs4] | |];
      [discriminate | discriminate | contradiction].
Qed.

Lemma findNextStatement_returns (reverse : bool) (e : Engine) :
  (if reverse then currentLine e <= Z.of_nat (length (sourceLines e))
   else 0 <= currentLine e) ->
  findNextStatement reverse e <> OutOfFuel.
Proof.
  intros H. rewrite findNextStatement_run.
  pose proof (findLoop_returns reverse (S (length (sourceLines e))) (currentLine e) e
                ltac:(lia)) as Hfind.
  specialize (Hfind ltac:(destruct reverse; lia)).
  destruct (findLoop _ reverse (currentLine e) e) as [[[b e'] evs] | |];
    [discriminate | discriminate | contradiction].
Qed.

Lemma bind_returns {A B} (m : M A) (k : A -> M B) (e : Engine) :
  m e <> OutOfFuel ->
  (forall a e1 evs, m e = Ok (a, e1, evs) -> k a e1 <> OutOfFuel) ->
  bind m k e <> OutOfFuel.
Proof.
  intros Hm Hk. unfold bind.
  destruct (m e) as [[[a e1] evs1] | |]; [| discriminate | contradiction].
  specialize (Hk a e1 evs1 eq_refl).
  destruct (k a e1) as [[[b e2] evs2] | |]; [discriminate | discriminate | contradiction].
Qed.

Lemma normalize_returns (reverse : bool) (e : Engine) :
  match normalize reverse e with
  | OutOfFuel => False
  | Panic => True
  | Ok (_, e', _) => sourceLines e' = sourceLines e /\ currentLine e' = currentLine e
  end.
Proof.
  unfold normalize. unfold_m.
  destruct ((0 <=? currentLine e) && (currentLine e <? Z.of_nat (length (starts e))));
    [| split; reflexivity].
  destruct reverse.
  - destruct (at_ (ends e) (currentLine e)); [split; reflexivity | exact I].
  - destruct (at_ (starts e) (currentLine e)); [split; reflexivity | exact I].
Qed.

Lemma Next_returns (reverse : bool) (e : Engine) :
  positioned e -> run (Next reverse) e <> OutOfFuel.
Proof.
  unfold positioned. intros Hp. unfold run, Next.
  pose proof (normalize_returns reverse e) as Hn.
  apply bind_returns.
  { destruct (normalize reverse e) as [[[u e0] evs0] | |];
      [discriminate | discriminate | contradiction]. }
  intros u e0 evs0 Hrun. rewrite Hrun in Hn. destruct Hn as [Hsrc0 Hcur0].
  apply bind_returns; [discriminate |].
  intros e0' e0'' evs0' [= <- <- _].
  pose proof (executeLine_returns (currentLine e0) reverse e0) as Hex.
  apply bind_returns.
  { destruct (executeLine (currentLine e0) reverse e0) as [[[b e1] evs1] | |];
      [discriminate | discriminate | contradiction]. }
  intros stopped e1 evs1 Hrun1. rewrite Hrun1 in Hex. destruct Hex as [Hsrc1 Hcur1].
  destruct stopped; [discriminate |].
  destruct (updateCurrentLine_returns reverse e1) as (atEnd & e2 & evs2 & Hup & Hsrc2 & Hmove).
  apply bind_returns; [rewrite Hup; discriminate |].
  intros atEnd' e2' evs2' Hup'. rewrite Hup in Hup'. injection Hup' as <- <- <-.
  apply bind_returns; [| intros; apply bind_returns; [discriminate | intros; discriminate]].
  destruct atEnd; [discriminate |].
  specialize (Hmove eq_refl).
  apply bind_returns; [| intros; discriminate].
  apply findNextStatement_returns.
  assert (Hlen : sourceLines e2 = sourceLines e) by congruence.
  destruct reverse; rewrite ?Hlen; lia.
Qed.

(** ** The instruction-breakpoint scan comes first *)




(** ** The exception step *)





(** ** SetVariable and the seen names *)




(** The same line on an engine that has executed [$x=1] before: the read
    of the seen name stops on the data breakpoint. *)
Example seen_name_read_stops :
  events (run (executeLine 1 false)
              (SetDataBreakpoint "x" "read" (after (Next false) (loaded twoLines))))
  = [OnStopOnDataBreakpoint 1 None].
Proof. vm_compute. reflexivity. Qed.

(** ** The sibling engines *)

(** The C# [StepIn] keeps the column within the line. *)
Lemma CSharp_StepIn_clamped (e : Engine) (line : string) (c : Z) :
  at_ (sourceLines e) (currentLine e) = Some line ->
  currentCol e = Some c ->
  let c' := Z.min (Str.len line) (c + 1) in
  run (CSharp.StepIn None) e
  = Ok (tt, set_currentCol (Some c') e, [OnStopOnStep (currentLine e) None])
  /\ c' <= Str.len line.
Proof.
  intros Hl Hc. cbv zeta. split; [| lia].
  unfold CSharp.StepIn. unfold_m. rewrite Hc, Hl. reflexivity.
Qed.

(** The C# [VerifyLine] agrees with the Go [verifyLine] on the lines of
    the document and clamps the others. *)
Lemma CSharp_VerifyLine_in_range (e : Engine) (l : Z) :
  0 <= l < Z.of_nat (length (sourceLines e)) ->
  CSharp.VerifyLine e l = verifyLine e l.
Proof.
  intros Hl. unfold CSharp.VerifyLine, verifyLine.
  destruct (sourceLines e) as [| l0 rest] eqn:Hsrc; [simpl in Hl; lia |].
  rewrite <- Hsrc in *.
  replace (Z.max 0 (Z.min l (Z.of_nat (length (sourceLines e)) - 1))) with l by lia.
  destruct (Z.ltb_spec l 0); [lia |].
  destruct (Z.leb_spec (Z.of_nat (length (sourceLines e))) l); [lia |].
  reflexivity.
Qed.

Example CSharp_VerifyLine_clamps :
  CSharp.VerifyLine (loaded "a") 5 = true /\ verifyLine (loaded "a") 5 = false.
Proof. split; reflexivity. Qed.

(** The TypeScript [stepIn] stops one column past the line. *)
Example TS_stepIn_overshoots :
  currentCol (after (TS.stepIn None) (after (TS.stepIn None) (after (TS.stepIn None)
             (loaded "ab")))) = Some 3
  /\ currentCol (after (TS.stepIn None) (after (TS.stepIn None) (after (TS.stepIn None)
             (after (TS.stepIn None) (loaded "ab"))))) = Some 3.
Proof. split; reflexivity. Qed.

(** The TypeScript [pause] sends a pause stop on every call. *)
Lemma TS_pause_twice (e : Engine) :
  run (TS.pause;; TS.pause) e
  = Ok (tt, e, [OnStopOnPause (currentLine e) (currentCol e);
                OnStopOnPause (currentLine e) (currentCol e)]).
Proof. reflexivity. Qed.

(** The TypeScript [setVariable] makes the name a seen one. *)
Lemma TS_setVariable_marks_seen (vars : gmap string Value) (name : string) (value : Value) :
  TS.bareAccess (TS.setVariable name value vars) name = Some "read".
Proof.
  unfold TS.bareAccess, TS.has, TS.setVariable.
  rewrite lookup_insert_eq. reflexivity.
Qed.
